(** * socialsimple: the upload, feed and delete handlers of app/app.py

    A shallow embedding of the three route handlers of [app/app.py] over the
    [posts] and [user] tables declared in [app/db.py], and the properties
    stated about them.

    The handlers are glue code between three collaborators: the ORM session,
    the media store ([imagekit]) and the operating system (temporary files).
    What a collaborator answers during one request is not decided by the
    handler, so every request carries a record of those answers; the handler
    is a function of the request, of these answers and of the state it runs
    in.  Handlers that contain a [try] statement are written in a state and
    exception monad; the feed handler, which has none, is a plain function. *)

From Stdlib Require Import ZArith Ascii String.
From stdpp Require Import gmap strings list sorting.

Local Open Scope string_scope.
Local Open Scope Z_scope.

#[local] Set Warnings "-clear-no-such-hyp".

(** ** Exceptions *)

(** [fastapi.HTTPException] derives from [Exception], like every other
    exception the handlers can meet.  The text that [str(e)] produces is left
    symbolic: a [detail] is either a literal of the source or [str] of an
    exception. *)
Inductive exn : Type :=
| HTTPException (status_code : Z) (detail : detail)
| ValueError (msg : string)
| TypeError (arg : string)
| AttributeError (arg : string)
| IntegrityError (table : string)
| OtherError (msg : string)
with detail : Type :=
| Lit (s : string)
| Str (e : exn).

Definition status_of (e : exn) : option Z :=
  match e with
  | HTTPException c _ => Some c
  | _ => None
  end.

(** ** A state and exception monad *)

Inductive result (A : Type) : Type :=
| Ok (a : A)
| Raise (e : exn).
Arguments Ok {A} a.
Arguments Raise {A} e.

Definition M (S A : Type) : Type := S → result A * S.

Definition ret {S A} (a : A) : M S A := λ s, (Ok a, s).

Definition raise {S A} (e : exn) : M S A := λ s, (Raise e, s).

Definition bind {S A B} (m : M S A) (k : A → M S B) : M S B :=
  λ s, match m s with
       | (Ok a, s') => k a s'
       | (Raise e, s') => (Raise e, s')
       end.

Definition get {S} : M S S := λ s, (Ok s, s).

Definition modify {S} (f : S → S) : M S unit := λ s, (Ok tt, f s).

(** [try: body except Exception as e: handler e] *)
Definition try_except {S A} (body : M S A) (handler : exn → M S A) : M S A :=
  λ s, match body s with
       | (Ok a, s') => (Ok a, s')
       | (Raise e, s') => handler e s'
       end.

(** [try: body finally: fin]: [fin] runs on every exit of [body]; the outcome
    of [body] stands unless [fin] itself raises. *)
Definition try_finally {S A} (body : M S A) (fin : M S unit) : M S A :=
  λ s, match body s with
       | (r, s') =>
           match fin s' with
           | (Ok _, s'') => (r, s'')
           | (Raise e, s'') => (Raise e, s'')
           end
       end.

(** A collaborator call that either raises or returns nothing of interest. *)
Definition attempt {S} (o : option exn) : M S unit :=
  match o with
  | Some e => raise e
  | None => ret tt
  end.

Declare Scope handler_scope.
Delimit Scope handler_scope with handler.
Notation "x <- m ;; k" := (bind m (λ x, k))
  (at level 100, m at next level, right associativity) : handler_scope.
Notation "m ;;; k" := (bind m (λ _, k))
  (at level 100, right associativity) : handler_scope.
Local Open Scope handler_scope.

(** ** Data model (app/db.py) *)

(** [uuid.UUID]: a 128-bit integer. *)
Abbreviation UUID := N.

Module User.
Record t : Type := mk { id : UUID; email : string }.
End User.

(** A row of the [posts] table.  [caption] is the only nullable column that
    the handlers fill in ([Column(Text)]); [id] and [created_at] receive
    their column defaults ([uuid.uuid4], [datetime.utcnow]) when the row is
    inserted.  A [datetime] is its number of microseconds. *)
Module Post.
Record t : Type := mk {
  id : UUID;
  user_id : UUID;
  caption : option string;
  url : string;
  file_type : string;
  file_name : string;
  created_at : Z
}.
End Post.

(** The state the handlers act on: the two tables, each the list of its rows
    in insertion order, the temporary files present on disk, and the upload
    streams that have been closed. *)
Record World : Type := mkWorld {
  tbl_posts : list Post.t;
  tbl_users : list User.t;
  tmp_files : gset string;
  closed : gset nat
}.

Definition set_posts (f : list Post.t → list Post.t) (w : World) : World :=
  mkWorld (f (tbl_posts w)) (tbl_users w) (tmp_files w) (closed w).

Definition set_files (f : gset string → gset string) (w : World) : World :=
  mkWorld (tbl_posts w) (tbl_users w) (f (tmp_files w)) (closed w).

Definition set_closed (f : gset nat → gset nat) (w : World) : World :=
  mkWorld (tbl_posts w) (tbl_users w) (tmp_files w) (f (closed w)).

(** ** The upload handler *)

(** [fastapi.UploadFile]: both [filename] and [content_type] are optional;
    [file] is the handle of the underlying stream. *)
Record UploadFile : Type := mkUploadFile {
  filename : option string;
  content_type : option string;
  file : nat
}.

(** What [imagekit.upload_file] returns. *)
Record UploadResult : Type := mkUploadResult {
  http_status_code : Z;
  upload_url : string;
  upload_name : string
}.

(** The answers of the collaborators during one upload request. *)
Record UploadIO : Type := mkUploadIO {
  io_NamedTemporaryFile : exn + string;  (* raises, or creates this path *)
  io_copyfileobj : option exn;
  io_open : option exn;
  io_imagekit : exn + UploadResult;
  io_uuid4 : UUID;                       (* column default of posts.id *)
  io_utcnow : Z;                         (* column default of posts.created_at *)
  io_commit : option exn;
  io_refresh : option exn
}.

(** The handler's frame: the world and the local variable [temp_file_path],
    which the [finally] clause reads. *)
Record Frame : Type := mkFrame {
  world : World;
  temp_file_path : option string
}.

Definition in_world (f : World → World) : M Frame unit :=
  modify (λ fr, mkFrame (f (world fr)) (temp_file_path fr)).

(** [os.path.splitext(file.filename)]: a [TypeError] on [None]. *)
Definition splitext (filename : option string) : M Frame unit :=
  match filename with
  | Some _ => ret tt
  | None => raise (TypeError "expected str, bytes or os.PathLike object, not NoneType")
  end.

(** [with tempfile.NamedTemporaryFile(delete=False, ...) as temp_file:
       temp_file_path = temp_file.name] *)
Definition NamedTemporaryFile (io : UploadIO) : M Frame unit :=
  match io_NamedTemporaryFile io with
  | inl e => raise e
  | inr path =>
      modify (λ fr, mkFrame (set_files (λ fs, {[path]} ∪ fs) (world fr)) (Some path))
  end.

Definition imagekit_upload_file (io : UploadIO) : M Frame UploadResult :=
  match io_imagekit io with
  | inl e => raise e
  | inr r => ret r
  end.

(** ['video' if file.content_type.startswith("video/") else "image"] *)
Definition file_type_of (content_type : option string) : M Frame string :=
  match content_type with
  | None => raise (AttributeError "'NoneType' object has no attribute 'startswith'")
  | Some ct => ret (if String.prefix "video/" ct then "video" else "image")
  end.

Definition has_id (x : UUID) (p : Post.t) : bool := N.eqb (Post.id p) x.

(** [session.add(post); await session.commit()]: the row is inserted with its
    column defaults; the primary key rejects an [id] already present. *)
Definition session_add_commit (io : UploadIO) (post : Post.t) : M Frame unit :=
  attempt (io_commit io) ;;;
  fr <- get ;;
  if existsb (has_id (Post.id post)) (tbl_posts (world fr))
  then raise (IntegrityError "posts")
  else in_world (set_posts (λ rows, (rows ++ [post])%list)).

(** The body of the [try] statement, lines 43-69. *)
Definition upload_body (f : UploadFile) (caption : string) (user : User.t)
    (io : UploadIO) : M Frame (option Post.t) :=
  splitext (filename f) ;;;
  NamedTemporaryFile io ;;;
  attempt (io_copyfileobj io) ;;;
  attempt (io_open io) ;;;
  upload_result <- imagekit_upload_file io ;;
  if Z.eqb (http_status_code upload_result) 200 then
    ft <- file_type_of (content_type f) ;;
    let post := Post.mk (io_uuid4 io) (User.id user) (Some caption)
                  (upload_url upload_result) ft (upload_name upload_result)
                  (io_utcnow io) in
    session_add_commit io post ;;;
    attempt (io_refresh io) ;;;
    ret (Some post)
  else ret None.

(** The [finally] clause, lines 74-76.  A path is truthy when it is not
    empty; [os.path.exists] looks the path up on disk.  [os.unlink] of a file
    that exists and [close] are taken to succeed, as they do on a POSIX
    system for a file the process has just created. *)
Definition upload_finally (f : UploadFile) : M Frame unit :=
  fr <- get ;;
  (match temp_file_path fr with
   | Some path =>
       if negb (String.eqb path "") && bool_decide (path ∈ tmp_files (world fr))
       then in_world (set_files (λ fs, fs ∖ {[path]}))
       else ret tt
   | None => ret tt
   end) ;;;
  in_world (set_closed (λ c, {[file f]} ∪ c)).

(** [upload_file], with the [caption] form field defaulting to [""].  The
    result [Ok None] is the fall-through of the function body, Python's
    implicit [return None]. *)
Definition upload_file (f : UploadFile) (caption : option string) (user : User.t)
    (io : UploadIO) : M World (option Post.t) :=
  λ w,
    let caption := default "" caption in
    let handler :=
      try_finally
        (try_except (upload_body f caption user io)
           (λ e, raise (HTTPException 500 (Str e))))
        (upload_finally f) in
    match handler (mkFrame w None) with
    | (r, fr) => (r, world fr)
    end.

(** ** The feed handler *)

(** [str(uuid)]: the 32 lower-case hexadecimal digits of the integer, in
    groups of 8, 4, 4, 4 and 12. *)
Definition hex_digit (n : N) : Ascii.ascii :=
  match n with
  | 0 => "0" | 1 => "1" | 2 => "2" | 3 => "3" | 4 => "4" | 5 => "5"
  | 6 => "6" | 7 => "7" | 8 => "8" | 9 => "9" | 10 => "a" | 11 => "b"
  | 12 => "c" | 13 => "d" | 14 => "e" | _ => "f"
  end%N%char.

Fixpoint hex (digits : nat) (n : N) : string :=
  match digits with
  | O => ""
  | S k => hex k (n / 16)%N +:+ String (hex_digit (n mod 16)%N) ""
  end.

Definition UUID_str (u : UUID) : string :=
  let h := hex 32 u in
  substring 0 8 h +:+ "-" +:+ substring 8 4 h +:+ "-" +:+ substring 12 4 h
    +:+ "-" +:+ substring 16 4 h +:+ "-" +:+ substring 20 12 h.

(** [datetime.isoformat()]: the text is not computed; the record keeps the
    rendering as a term, which [fromisoformat] reads back. *)
Inductive isostring : Type := isoformat (t : Z).

Definition fromisoformat (s : isostring) : Z := let 'isoformat t := s in t.

(** One element of [posts_data], lines 94-104. *)
Module PostView.
Record t : Type := mk {
  id : string;
  user_id : string;
  caption : option string;
  url : string;
  file_type : string;
  file_name : string;
  created_at : isostring;
  is_owner : bool;
  email : string
}.
End PostView.

Record FeedResponse : Type := mkFeedResponse { posts : list PostView.t }.

(** [Post.created_at.desc()]: [a] may precede [b] when it is not older. *)
Definition created_at_desc (a b : Post.t) : Prop :=
  Post.created_at b ≤ Post.created_at a.

#[global] Instance created_at_desc_dec : RelDecision created_at_desc.
Proof. intros a b. unfold created_at_desc. apply _. Defined.

(** [select(Post).order_by(Post.created_at.desc())]: the database sorts the
    rows; rows with equal timestamps come in an order it does not promise,
    here the one of a merge sort. *)
Definition select_posts_ordered (w : World) : list Post.t :=
  merge_sort created_at_desc (tbl_posts w).

(** [{u.id: u.email for u in users}]: a later row overrides an earlier one. *)
Definition user_dict_of (users : list User.t) : gmap UUID string :=
  foldl (λ d u, <[User.id u := User.email u]> d) ∅ users.

Definition post_view (user : User.t) (user_dict : gmap UUID string)
    (post : Post.t) : PostView.t :=
  PostView.mk
    (UUID_str (Post.id post))
    (UUID_str (Post.user_id post))
    (Post.caption post)
    (Post.url post)
    (Post.file_type post)
    (Post.file_name post)
    (isoformat (Post.created_at post))
    (N.eqb (Post.user_id post) (User.id user))
    (default "Unknown" (user_dict !! Post.user_id post)).

Definition get_feed (user : User.t) (w : World) : FeedResponse :=
  let posts := select_posts_ordered w in
  let user_dict := user_dict_of (tbl_users w) in
  mkFeedResponse (post_view user user_dict <$> posts).

(** ** The delete handler *)

Record DeleteAck : Type := mkDeleteAck { success : bool; message : string }.

(** The answers of the session during one delete request. *)
Record DeleteIO : Type := mkDeleteIO {
  io_execute : option exn;
  io_delete_commit : option exn
}.

(** [select(Post).where(Post.id == post_uuid)] then [.scalars().first()] *)
Definition select_post_first (io : DeleteIO) (post_uuid : UUID)
    : M World (option Post.t) :=
  attempt (io_execute io) ;;;
  w <- get ;;
  ret (List.find (has_id post_uuid) (tbl_posts w)).

(** [await session.delete(post); await session.commit()] *)
Definition session_delete_commit (io : DeleteIO) (post : Post.t) : M World unit :=
  attempt (io_delete_commit io) ;;;
  modify (set_posts (filter (λ p, Post.id p ≠ Post.id post))).

(** The two exceptions raised inside the [try] block, and the acknowledgment
    returned at its end. *)
Definition not_found : exn := HTTPException 404 (Lit "Post not found").

Definition forbidden : exn :=
  HTTPException 403 (Lit "You don't have permission to delete this post.").

Definition deleted : DeleteAck := mkDeleteAck true "Post deleted successfully".

(** A request in a run of the service. *)
Inductive request : Type :=
| Upload (f : UploadFile) (caption : option string) (user : User.t) (io : UploadIO)
| Feed (user : User.t)
| Delete (post_id : string) (user : User.t) (io : DeleteIO).

Section Delete.
(** [uuid.UUID(hex)] belongs to Python's standard library; the function is a
    parameter of the handler.  On a string it cannot read it raises a
    [ValueError]: [inl msg] is that outcome, [msg] being the message of the
    exception; [inr u] is the UUID it returns. *)
Variable uuid_UUID : string → string + UUID.

Definition parse_uuid (post_id : string) : M World UUID :=
  match uuid_UUID post_id with
  | inr u => ret u
  | inl msg => raise (ValueError msg)
  end.

Definition delete_post (post_id : string) (user : User.t) (io : DeleteIO)
    : M World DeleteAck :=
  try_except
    (post_uuid <- parse_uuid post_id ;;
     post <- select_post_first io post_uuid ;;
     match post with
     | None => raise not_found
     | Some post =>
         if negb (N.eqb (Post.user_id post) (User.id user))
         then raise forbidden
         else
           session_delete_commit io post ;;;
           ret deleted
     end)
    (λ e, raise (HTTPException 500 (Str e))).

(** The state after one request, and after a run of requests. *)
Definition handle (w : World) (r : request) : World :=
  match r with
  | Upload f caption user io => snd (upload_file f caption user io w)
  | Feed _ => w
  | Delete post_id user io => snd (delete_post post_id user io w)
  end.

Definition run (w : World) (rs : list request) : World := foldl handle w rs.

(** The request deletes the post [x] when run in [w]. *)
Definition deletes (x : UUID) (w : World) (r : request) : bool :=
  match r with
  | Delete post_id user io =>
      match delete_post post_id user io w, uuid_UUID post_id with
      | (Ok _, _), inr u => N.eqb u x
      | _, _ => false
      end
  | _ => false
  end.

(** No request of the run deletes the post [x]. *)
Fixpoint undeleted (x : UUID) (w : World) (rs : list request) : bool :=
  match rs with
  | [] => true
  | r :: rs' => negb (deletes x w r) && undeleted x (handle w r) rs'
  end.
End Delete.

(** ** Definitions used in the statements *)

(** The post that [upload_body] constructs at lines 59-65 from a content
    type [ct] and the media store's answer [res]. *)
Definition new_post (caption : option string) (user : User.t) (io : UploadIO)
    (res : UploadResult) (ct : string) : Post.t :=
  Post.mk (io_uuid4 io) (User.id user) (Some (default "" caption))
    (upload_url res) (if String.prefix "video/" ct then "video" else "image")
    (upload_name res) (io_utcnow io).

(** The frame that the [finally] clause leaves. *)
Definition cleanup (f : UploadFile) (fr : Frame) : Frame :=
  let w :=
    match temp_file_path fr with
    | Some path =>
        if negb (String.eqb path "") && bool_decide (path ∈ tmp_files (world fr))
        then set_files (λ fs, fs ∖ {[path]}) (world fr)
        else world fr
    | None => world fr
    end in
  mkFrame (set_closed (λ c, {[file f]} ∪ c) w) (temp_file_path fr).

(** The record of the feed with every caller-dependent part erased. *)
Definition without_is_owner (v : PostView.t) : PostView.t :=
  PostView.mk (PostView.id v) (PostView.user_id v) (PostView.caption v)
    (PostView.url v) (PostView.file_type v) (PostView.file_name v)
    (PostView.created_at v) false (PostView.email v).

(** The identifiers in the [posts] table, in row order. *)
Definition ids (w : World) : list UUID := Post.id <$> tbl_posts w.

(** Every collaborator of an upload answers up to and including the media
    store, whose answer is [res]. *)
Definition reaches_media_store (f : UploadFile) (io : UploadIO)
    (res : UploadResult) : Prop :=
  is_Some (filename f) ∧
  (∃ path, io_NamedTemporaryFile io = inr path) ∧
  io_copyfileobj io = None ∧
  io_open io = None ∧
  io_imagekit io = inr res.

(** The request creates the post [p]: it is an upload whose media store
    reported 200 and whose part has a content type, and [p] is the post of
    lines 59-65 for it. *)
Definition created_by (r : request) (p : Post.t) : Prop :=
  match r with
  | Upload f caption user io =>
      ∃ res ct, io_imagekit io = inr res ∧ http_status_code res = 200 ∧
                content_type f = Some ct ∧ p = new_post caption user io res ct
  | _ => False
  end.

Definition video_or_image (p : Post.t) : Prop :=
  Post.file_type p = "video" ∨ Post.file_type p = "image".

(** ** A parser instance and a small scenario *)

(** An instance of the parser, for the examples.  It reads 32 hexadecimal
    digits with hyphens anywhere, the canonical form that [UUID_str] prints
    included, to the integer that [uuid.UUID] reads them to.  A string that
    is not 32 characters long once its hyphens are removed gets the message
    that [uuid.UUID] gives such a string when it has no braces and no
    [urn:] or [uuid:] in it; of the other strings that the instance refuses,
    [uuid.UUID] accepts a few (digits separated by an underscore, a sign),
    and none of them is used below. *)
Definition hex_value (c : Ascii.ascii) : option N :=
  let n := N_of_ascii c in
  if (48 <=? n)%N && (n <=? 57)%N then Some (n - 48)%N
  else if (97 <=? n)%N && (n <=? 102)%N then Some (n - 87)%N
  else if (65 <=? n)%N && (n <=? 70)%N then Some (n - 55)%N
  else None.

Fixpoint remove_hyphens (s : string) : string :=
  match s with
  | EmptyString => EmptyString
  | String c s' =>
      if Ascii.eqb c "-" then remove_hyphens s' else String c (remove_hyphens s')
  end.

Fixpoint hex_int (acc : N) (s : string) : option N :=
  match s with
  | EmptyString => Some acc
  | String c s' =>
      match hex_value c with
      | Some d => hex_int (16 * acc + d)%N s'
      | None => None
      end
  end.

Definition hex_UUID (s : string) : string + UUID :=
  let h := remove_hyphens s in
  if Nat.eqb (String.length h) 32 then
    match hex_int 0 h with
    | Some u => inr u
    | None => inl ("invalid literal for int() with base 16: '" +:+ h +:+ "'")
    end
  else inl "badly formed hexadecimal UUID string".

Definition alice : User.t := User.mk 0xa11ce "alice@example.org".
Definition bob : User.t := User.mk 0xb0b "bob@example.org".

Definition empty_world : World := mkWorld [] [alice; bob] ∅ ∅.

Definition cat_jpg : UploadFile :=
  mkUploadFile (Some "cat.jpg") (Some "image/jpeg") 7%nat.

Definition clip_mp4 : UploadFile :=
  mkUploadFile (Some "clip.mp4") (Some "video/mp4") 8%nat.

(** Every collaborator answers; the media store reports [status]. *)
Definition answers (status : Z) (id : UUID) (now : Z) : UploadIO :=
  mkUploadIO (inr "/tmp/tmpk3x9") None None
    (inr (mkUploadResult status "https://ik.example/media_Xy1" "media_Xy1"))
    id now None None.

Definition quiet : DeleteIO := mkDeleteIO None None.

Definition cat_id : string := "00000000-0000-0000-0000-00000000cafe".

(** Alice has uploaded [cat.jpg] with caption ["hi"]. *)
Definition cat_world : World :=
  snd (upload_file cat_jpg (Some "hi") alice (answers 200 0xcafe 1000) empty_world).

(** Then Bob has uploaded [clip.mp4] without a caption. *)
Definition clip_world : World :=
  snd (upload_file clip_mp4 None bob (answers 200 0xc11b 2000) cat_world).

Definition cat_view (is_owner : bool) : PostView.t :=
  PostView.mk "00000000-0000-0000-0000-00000000cafe"
    "00000000-0000-0000-0000-0000000a11ce" (Some "hi")
    "https://ik.example/media_Xy1" "image" "media_Xy1" (isoformat 1000)
    is_owner "alice@example.org".

Definition clip_view (is_owner : bool) : PostView.t :=
  PostView.mk "00000000-0000-0000-0000-00000000c11b"
    "00000000-0000-0000-0000-000000000b0b" (Some "")
    "https://ik.example/media_Xy1" "video" "media_Xy1" (isoformat 2000)
    is_owner "bob@example.org".

Definition media_answer (status : Z) : UploadResult :=
  mkUploadResult status "https://ik.example/media_Xy1" "media_Xy1".

(** The session loses its connection after the commit. *)
Definition refresh_fails : UploadIO :=
  mkUploadIO (inr "/tmp/tmpk3x9") None None (inr (media_answer 200))
    0xcafe 1000 None (Some (OtherError "connection lost")).

(** The media store cannot be reached. *)
Definition media_store_down : UploadIO :=
  mkUploadIO (inr "/tmp/tmpk3x9") None None
    (inl (OtherError "connection reset")) 0xcafe 1000 None None.

(** An upload whose part has no content type, and one without a file name. *)
Definition untyped_jpg : UploadFile := mkUploadFile (Some "cat.jpg") None 7%nat.

Definition unnamed_jpg : UploadFile := mkUploadFile None (Some "image/jpeg") 9%nat.

(** A post whose owner has no row in the [user] table. *)
Definition orphan_world : World :=
  mkWorld (tbl_posts cat_world) [bob] ∅ ∅.

(** The rows of [clip_world], inserted in the other order. *)
Definition clip_world_swapped : World :=
  mkWorld (rev (tbl_posts clip_world)) (tbl_users clip_world) ∅ ∅.

(** The session fails while the delete is committed. *)
Definition commit_fails : DeleteIO :=
  mkDeleteIO None (Some (OtherError "database is locked")).

Definition clip_id : string := "00000000-0000-0000-0000-00000000c11b".

(** Alice uploads the cat, Bob tries to delete it, Bob uploads the clip. *)
Definition busy_run : list request :=
  [Upload cat_jpg (Some "hi") alice (answers 200 0xcafe 1000);
   Delete cat_id bob quiet;
   Feed alice;
   Upload clip_mp4 None bob (answers 200 0xc11b 2000)].

(** ** Reasoning about handlers *)

Ltac unfold_handler :=
  unfold upload_file, upload_body, upload_finally, session_add_commit,
    file_type_of, imagekit_upload_file, NamedTemporaryFile, splitext, in_world,
    select_post_first, session_delete_commit,
    try_finally, try_except, attempt, bind, ret, raise, get, modify in *.

Ltac step_handler :=
  repeat (simpl in *; simplify_eq; try case_match).

(** What an upload does to the [posts] table: nothing, or one row appended;
    a post is returned only in the second case, and it is that row. *)
Lemma upload_file_inv f caption user io w r w' :
  upload_file f caption user io w = (r, w') →
  tbl_users w' = tbl_users w ∧
  ((tbl_posts w' = tbl_posts w ∧ ∀ p, r ≠ Ok (Some p)) ∨
   (∃ res ct,
      io_imagekit io = inr res ∧ http_status_code res = 200 ∧
      content_type f = Some ct ∧
      existsb (has_id (io_uuid4 io)) (tbl_posts w) = false ∧
      tbl_posts w' = (tbl_posts w ++ [new_post caption user io res ct])%list ∧
      (r = Ok (Some (new_post caption user io res ct)) ∨ ∃ e, r = Raise e))).
Proof.
  intros H. unfold_handler. unfold new_post.
  step_handler; (split; [done|]);
    try (left; split; [done | congruence]);
    right; eexists _, _;
    (split; [reflexivity|]); (split; [lia|]); (split; [reflexivity|]);
    match goal with E : String.prefix _ _ = _ |- _ => rewrite E end;
    eauto.
Qed.

(** A post that an upload returns or appends to the table is the post of
    lines 59-65. *)
Lemma upload_post_is_new f caption user io w post :
  fst (upload_file f caption user io w) = Ok (Some post) ∨
  tbl_posts (snd (upload_file f caption user io w)) = (tbl_posts w ++ [post])%list →
  ∃ res ct,
    io_imagekit io = inr res ∧ content_type f = Some ct ∧
    post = new_post caption user io res ct.
Proof.
  destruct (upload_file f caption user io w) as [r w'] eqn:E.
  apply upload_file_inv in E as [_ [[Hp Hr]|(res & ct & Hik & _ & Hct & _ & Hp & Hr)]];
    simpl; intros [H|H].
  - by destruct (Hr post).
  - rewrite Hp in H. apply (f_equal length) in H.
    rewrite length_app in H. simpl in H. lia.
  - exists res, ct. destruct Hr as [Hr|[e Hr]]; simplify_eq. done.
  - exists res, ct. rewrite Hp in H. apply app_inv_head in H. by simplify_eq.
Qed.

(** The [finally] clause never raises. *)
Lemma upload_finally_total f fr : upload_finally f fr = (Ok tt, cleanup f fr).
Proof.
  unfold upload_finally, cleanup, in_world, bind, get, modify, ret.
  destruct fr as [w [path|]]; simpl; [|done].
  by destruct (negb _ && _).
Qed.

(** The handler is its [try ... except] part followed by [cleanup]. *)
Lemma upload_file_cleanup f caption user io w :
  upload_file f caption user io w =
  let '(r, fr) :=
    try_except (upload_body f (default "" caption) user io)
      (λ e, raise (HTTPException 500 (Str e))) (mkFrame w None) in
  (r, world (cleanup f fr)).
Proof.
  unfold upload_file, try_finally.
  destruct (try_except _ _ _) as [r fr]. by rewrite upload_finally_total.
Qed.

(** The [try ... except] part closes no stream, and leaves on disk exactly
    the temporary file it created, recorded in [temp_file_path]. *)
Lemma upload_try_files f caption user io w r fr :
  try_except (upload_body f caption user io)
    (λ e, raise (HTTPException 500 (Str e))) (mkFrame w None) = (r, fr) →
  closed (world fr) = closed w ∧
  match filename f, io_NamedTemporaryFile io with
  | Some _, inr path =>
      temp_file_path fr = Some path ∧ tmp_files (world fr) = {[path]} ∪ tmp_files w
  | _, _ => temp_file_path fr = None ∧ tmp_files (world fr) = tmp_files w
  end.
Proof.
  intros H. unfold_handler. step_handler; done.
Qed.

(** ** Upload *)

(** C1: a post that an upload returns or persists has [file_type] "video"
    exactly when the content type of the uploaded file starts with "video/",
    and "image" exactly when it does not; there is no third value. *)
Theorem upload_file_type_video_iff f caption user io w post :
  fst (upload_file f caption user io w) = Ok (Some post) ∨
  tbl_posts (snd (upload_file f caption user io w)) = (tbl_posts w ++ [post])%list →
  ∃ ct, content_type f = Some ct ∧
    (Post.file_type post = "video" ↔ String.prefix "video/" ct = true) ∧
    (Post.file_type post = "image" ↔ String.prefix "video/" ct = false).
Proof.
  intros H. apply upload_post_is_new in H as (res & ct & _ & Hct & ->).
  exists ct. split; [done|]. unfold new_post; simpl.
  destruct (String.prefix "video/" ct); split; split; done.
Qed.

Lemma upload_file_type_video_iff_witness :
  ∃ ct, content_type clip_mp4 = Some ct ∧
    (Post.file_type (new_post None bob (answers 200 0xc11b 2000)
                       (mkUploadResult 200 "https://ik.example/media_Xy1" "media_Xy1")
                       "video/mp4") = "video"
     ↔ String.prefix "video/" ct = true) ∧
    (Post.file_type (new_post None bob (answers 200 0xc11b 2000)
                       (mkUploadResult 200 "https://ik.example/media_Xy1" "media_Xy1")
                       "video/mp4") = "image"
     ↔ String.prefix "video/" ct = false).
Proof.
  apply (upload_file_type_video_iff clip_mp4 None bob (answers 200 0xc11b 2000)
           empty_world).
  left. reflexivity.
Defined.

(** C10: when the request omits the [caption] form field, a post that the
    upload returns or persists carries the empty string as its caption, not
    the null that the column would allow. *)
Theorem upload_caption_omitted f user io w post :
  fst (upload_file f None user io w) = Ok (Some post) ∨
  tbl_posts (snd (upload_file f None user io w)) = (tbl_posts w ++ [post])%list →
  Post.caption post = Some "".
Proof.
  intros H. by apply upload_post_is_new in H as (res & ct & _ & _ & ->).
Qed.

Lemma upload_caption_omitted_witness :
  Post.caption (new_post None bob (answers 200 0xc11b 2000)
                  (mkUploadResult 200 "https://ik.example/media_Xy1" "media_Xy1")
                  "video/mp4") = Some "".
Proof.
  apply (upload_caption_omitted clip_mp4 bob (answers 200 0xc11b 2000) empty_world).
  left. reflexivity.
Defined.

(** C7: when no collaborator raises and the media store reports a status
    other than 200, the upload persists no post and falls off the end of the
    function body: it returns [None] and raises nothing. *)
Theorem upload_non_200_falls_through f caption user io w name path res :
  filename f = Some name →
  io_NamedTemporaryFile io = inr path →
  io_copyfileobj io = None →
  io_open io = None →
  io_imagekit io = inr res →
  http_status_code res ≠ 200 →
  fst (upload_file f caption user io w) = Ok None ∧
  tbl_posts (snd (upload_file f caption user io w)) = tbl_posts w.
Proof.
  intros Hname Htmp Hcopy Hopen Hik Hstatus.
  apply Z.eqb_neq in Hstatus.
  unfold_handler. rewrite Hname, Htmp, Hcopy, Hopen, Hik. simpl.
  rewrite Hstatus. simpl. by destruct (negb _ && _).
Qed.

Lemma upload_non_200_falls_through_witness :
  fst (upload_file cat_jpg (Some "hi") alice (answers 503 0xcafe 1000) empty_world)
    = Ok None ∧
  tbl_posts (snd (upload_file cat_jpg (Some "hi") alice (answers 503 0xcafe 1000)
                    empty_world)) = tbl_posts empty_world.
Proof.
  apply (upload_non_200_falls_through cat_jpg (Some "hi") alice
           (answers 503 0xcafe 1000) empty_world "cat.jpg" "/tmp/tmpk3x9"
           (mkUploadResult 503 "https://ik.example/media_Xy1" "media_Xy1"));
    first [reflexivity | done].
Defined.

(** C8: whatever the collaborators answer, and so on every exit of the
    handler, the input stream is closed; and when the temporary file was
    created, under a path that is not empty, no file exists under that path
    afterwards, the other files being left as they were. *)
Theorem upload_always_cleans_up f caption user io w :
  file f ∈ closed (snd (upload_file f caption user io w)) ∧
  ∀ path,
    is_Some (filename f) →
    io_NamedTemporaryFile io = inr path →
    path ≠ "" →
    tmp_files (snd (upload_file f caption user io w)) = tmp_files w ∖ {[path]}.
Proof.
  rewrite upload_file_cleanup.
  destruct (try_except _ _ _) as [r fr] eqn:E.
  apply upload_try_files in E as [Hclosed Hfiles]. simpl.
  split; [set_solver|].
  intros path [name Hname] Htmp Hne. rewrite Hname, Htmp in Hfiles.
  destruct Hfiles as [-> Hfiles].
  apply String.eqb_neq in Hne. rewrite Hne, bool_decide_true by set_solver.
  simpl. set_solver.
Qed.

Lemma upload_always_cleans_up_witness :
  7%nat ∈ closed cat_world ∧
  tmp_files cat_world = tmp_files empty_world ∖ {["/tmp/tmpk3x9"]}.
Proof.
  destruct (upload_always_cleans_up cat_jpg (Some "hi") alice
              (answers 200 0xcafe 1000) empty_world) as [Hclosed Hfile].
  split.
  - exact Hclosed.
  - apply Hfile; [by eexists | reflexivity | discriminate].
Defined.

(** ** Feed *)

#[global] Instance created_at_desc_trans : Transitive created_at_desc.
Proof. unfold created_at_desc. intros a b c ??. lia. Qed.

#[global] Instance created_at_desc_total : Total created_at_desc.
Proof. unfold created_at_desc. intros a b. lia. Qed.

Lemma select_posts_ordered_sorted w :
  StronglySorted created_at_desc (select_posts_ordered w).
Proof. apply (StronglySorted_merge_sort _). Qed.

Lemma select_posts_ordered_perm w : select_posts_ordered w ≡ₚ tbl_posts w.
Proof. apply merge_sort_Permutation. Qed.

(** In a strongly sorted list, an earlier element is related to a later one. *)
Lemma StronglySorted_lookup_lt {A} (R : relation A) (l : list A) i j a b :
  StronglySorted R l → l !! i = Some a → l !! j = Some b → (i < j)%nat → R a b.
Proof.
  intros Hsorted. revert i j.
  induction Hsorted as [|x l Hsorted IH Hall]; intros i j Hi Hj Hlt; [done|].
  destruct j as [|j]; [lia|]. simpl in Hj.
  destruct i as [|i]; simpl in Hi.
  - simplify_eq. rewrite Forall_forall in Hall.
    apply Hall. by eapply list_elem_of_lookup_2.
  - eapply IH; eauto. lia.
Qed.

(** C5: the i-th record of the feed is built from the i-th selected post, and
    its [is_owner] is true exactly when that post's [user_id] is the
    caller's id.  The caller decides nothing else: the posts selected are
    the whole table, each row once, and two callers get the same records up
    to [is_owner]. *)
Theorem feed_is_owner_iff_and_global user w :
  (∀ i v, posts (get_feed user w) !! i = Some v →
     ∃ post, select_posts_ordered w !! i = Some post ∧
       v = post_view user (user_dict_of (tbl_users w)) post ∧
       (PostView.is_owner v = true ↔ Post.user_id post = User.id user)) ∧
  select_posts_ordered w ≡ₚ tbl_posts w ∧
  length (posts (get_feed user w)) = length (tbl_posts w) ∧
  (∀ other, without_is_owner <$> posts (get_feed other w)
            = without_is_owner <$> posts (get_feed user w)).
Proof.
  split; [|split; [|split]].
  - intros i v Hv. simpl in Hv.
    apply list_lookup_fmap_Some in Hv as (post & -> & Hpost).
    exists post. split; [done|]. split; [done|]. simpl. apply N.eqb_eq.
  - apply select_posts_ordered_perm.
  - simpl. rewrite length_fmap. by rewrite select_posts_ordered_perm.
  - intros other. simpl. rewrite <- !list_fmap_compose.
    by apply list_fmap_ext.
Qed.

Lemma feed_is_owner_iff_and_global_witness :
  ∃ post, select_posts_ordered cat_world !! 0%nat = Some post ∧
    cat_view false = post_view bob (user_dict_of (tbl_users cat_world)) post ∧
    (PostView.is_owner (cat_view false) = true ↔ Post.user_id post = User.id bob).
Proof.
  apply (proj1 (feed_is_owner_iff_and_global bob cat_world) 0%nat (cat_view false)).
  vm_compute. reflexivity.
Defined.

(** C6: within one feed response, a record with a greater [created_at]
    stands before a record with a smaller one. *)
Theorem feed_newest_first user w i j A B :
  posts (get_feed user w) !! i = Some A →
  posts (get_feed user w) !! j = Some B →
  fromisoformat (PostView.created_at A) > fromisoformat (PostView.created_at B) →
  (i < j)%nat.
Proof.
  simpl. intros HA HB Hgt.
  apply list_lookup_fmap_Some in HA as (a & -> & Ha).
  apply list_lookup_fmap_Some in HB as (b & -> & Hb).
  simpl in Hgt.
  destruct (decide (i < j)%nat) as [|Hge]; [done|].
  destruct (decide (i = j)) as [->|Hne]; [simplify_eq; lia|].
  assert (created_at_desc b a) as Hba.
  { eapply (StronglySorted_lookup_lt _ _ j i);
      eauto using select_posts_ordered_sorted. lia. }
  unfold created_at_desc in Hba. lia.
Qed.

Lemma feed_newest_first_witness :
  posts (get_feed bob clip_world) !! 0%nat = Some (clip_view true) ∧
  posts (get_feed bob clip_world) !! 1%nat = Some (cat_view false) ∧
  (0 < 1)%nat.
Proof.
  assert (posts (get_feed bob clip_world) !! 0%nat = Some (clip_view true)) as H0
    by (vm_compute; reflexivity).
  assert (posts (get_feed bob clip_world) !! 1%nat = Some (cat_view false)) as H1
    by (vm_compute; reflexivity).
  split; [exact H0|]. split; [exact H1|].
  apply (feed_newest_first bob clip_world 0 1 (clip_view true) (cat_view false) H0 H1).
  reflexivity.
Defined.

(** ** Delete *)

(** What a delete does: it touches nothing but the [posts] table, and it
    either fails with status 500 and leaves the table as it was, or succeeds
    and removes the rows whose [id] is that of the post it found, a post of
    the caller. *)
Lemma delete_post_inv parse post_id user io w r w' :
  delete_post parse post_id user io w = (r, w') →
  tbl_users w' = tbl_users w ∧ tmp_files w' = tmp_files w ∧ closed w' = closed w ∧
  ((w' = w ∧ ∃ e, r = Raise (HTTPException 500 (Str e))) ∨
   (∃ u post,
      parse post_id = inr u ∧
      List.find (has_id u) (tbl_posts w) = Some post ∧
      Post.user_id post = User.id user ∧
      r = Ok deleted ∧
      tbl_posts w' = filter (λ p, Post.id p ≠ Post.id post) (tbl_posts w))).
Proof.
  intros H. unfold delete_post, parse_uuid in H. unfold_handler.
  step_handler; repeat split; eauto.
  right. eexists _, _. repeat split; eauto.
  by apply N.eqb_eq, negb_false_iff.
Qed.

Lemma find_has_id x rows post :
  List.find (has_id x) rows = Some post → Post.id post = x ∧ post ∈ rows.
Proof.
  intros H. apply find_some in H as [Hin Hid].
  split; [by apply N.eqb_eq | by apply list_elem_of_In].
Qed.

Lemma delete_post_missing parse post_id user io w u :
  parse post_id = inr u →
  io_execute io = None →
  List.find (has_id u) (tbl_posts w) = None →
  delete_post parse post_id user io w
    = (Raise (HTTPException 500 (Str not_found)), w).
Proof.
  intros Hparse Hexec Hfind. unfold delete_post, parse_uuid. unfold_handler.
  by rewrite Hparse, Hexec, Hfind.
Qed.

Lemma delete_post_not_owner parse post_id user io w u post :
  parse post_id = inr u →
  io_execute io = None →
  List.find (has_id u) (tbl_posts w) = Some post →
  Post.user_id post ≠ User.id user →
  delete_post parse post_id user io w
    = (Raise (HTTPException 500 (Str forbidden)), w).
Proof.
  intros Hparse Hexec Hfind Hne. apply N.eqb_neq in Hne.
  unfold delete_post, parse_uuid. unfold_handler.
  by rewrite Hparse, Hexec, Hfind, Hne.
Qed.

(** After a delete has succeeded, a delete of the same identifier does not
    succeed again. *)
Lemma delete_post_never_twice parse post_id user io w w' user' io' :
  delete_post parse post_id user io w = (Ok deleted, w') →
  fst (delete_post parse post_id user' io' w') ≠ Ok deleted.
Proof.
  intros H1 H2.
  apply delete_post_inv in H1 as (_ & _ & _ & [[_ [e ?]]|(u & post & Hu & Hfind & _ & _ & Hrows)]);
    [done|].
  destruct (delete_post parse post_id user' io' w') as [r w''] eqn:E.
  apply delete_post_inv in E as (_ & _ & _ & [[_ [e ?]]|(u' & post' & Hu' & Hfind' & _)]);
    simpl in H2; simplify_eq.
  apply find_has_id in Hfind as [Hid _]. apply find_has_id in Hfind' as [Hid' Hin].
  rewrite Hrows in Hin. apply list_elem_of_filter in Hin as [Hne _]. congruence.
Qed.

(** C2, as the code has it: a delete whose [post_id] does not parse raises
    the handler's status 500, with [str] of the [ValueError] that the parser
    raised as its detail, and changes nothing. *)
Theorem delete_unparseable_is_500 parse post_id user io w msg :
  parse post_id = inl msg →
  delete_post parse post_id user io w
    = (Raise (HTTPException 500 (Str (ValueError msg))), w).
Proof.
  intros Hparse. unfold delete_post, parse_uuid. unfold_handler.
  by rewrite Hparse.
Qed.

Lemma delete_unparseable_is_500_witness :
  delete_post hex_UUID "not-a-uuid" bob quiet cat_world
    = (Raise (HTTPException 500
                (Str (ValueError "badly formed hexadecimal UUID string"))),
       cat_world).
Proof.
  apply (delete_unparseable_is_500 hex_UUID "not-a-uuid" bob quiet cat_world
           "badly formed hexadecimal UUID string").
  reflexivity.
Defined.

(** C2, as stated, fails: ["not-a-uuid"] is not a UUID, and the delete
    raises neither status 400 nor status 422. *)
Lemma delete_not_a_uuid_is_not_client_error :
  hex_UUID "not-a-uuid" = inl "badly formed hexadecimal UUID string" ∧
  ¬ ∃ e, fst (delete_post hex_UUID "not-a-uuid" bob quiet cat_world) = Raise e ∧
         (status_of e = Some 400 ∨ status_of e = Some 422).
Proof.
  split; [reflexivity|].
  rewrite (delete_unparseable_is_500 hex_UUID _ _ _ _
             "badly formed hexadecimal UUID string") by reflexivity.
  intros (e & He & [Hs|Hs]); simpl in He; simplify_eq; discriminate.
Qed.

(** C3, on the code: Alice's delete of a well-formed identifier that matches
    no post raises status 500, whose detail is [str] of the 404 exception
    raised inside the [try] block; and so does her second delete of her own
    post, after the first one has succeeded. *)
Theorem delete_missing_post_is_500 :
  hex_UUID cat_id = inr 0xcafe%N ∧
  List.find (has_id 0xcafe) (tbl_posts empty_world) = None ∧
  fst (delete_post hex_UUID cat_id alice quiet empty_world)
    = Raise (HTTPException 500 (Str not_found)) ∧
  fst (delete_post hex_UUID cat_id alice quiet cat_world) = Ok deleted ∧
  fst (delete_post hex_UUID cat_id alice quiet
         (snd (delete_post hex_UUID cat_id alice quiet cat_world)))
    = Raise (HTTPException 500 (Str not_found)).
Proof. repeat split; vm_compute; reflexivity. Qed.

(** C4, on the code: Bob's delete of Alice's post raises status 500, whose
    detail is [str] of the 403 exception raised inside the [try] block; the
    post is still in the table. *)
Theorem delete_foreign_post_is_500 :
  hex_UUID cat_id = inr 0xcafe%N ∧
  (∃ post, List.find (has_id 0xcafe) (tbl_posts cat_world) = Some post ∧
           Post.user_id post = User.id alice ∧ User.id alice ≠ User.id bob) ∧
  fst (delete_post hex_UUID cat_id bob quiet cat_world)
    = Raise (HTTPException 500 (Str forbidden)) ∧
  tbl_posts (snd (delete_post hex_UUID cat_id bob quiet cat_world))
    = tbl_posts cat_world.
Proof.
  split; [vm_compute; reflexivity|]. split.
  - eexists. split; [vm_compute; reflexivity|]. split; [reflexivity|discriminate].
  - split; vm_compute; reflexivity.
Qed.

(** ** Upload, then feed *)

(** A stored post survives a request that does not delete it. *)
Lemma handle_keeps parse w r post :
  post ∈ tbl_posts w →
  deletes parse (Post.id post) w r = false →
  post ∈ tbl_posts (handle parse w r).
Proof.
  intros Hin Hdel. destruct r as [f caption user io|user|post_id user io]; simpl.
  - destruct (upload_file f caption user io w) as [r w'] eqn:E. simpl.
    apply upload_file_inv in E as [_ [[-> _]|(res & ct & _ & _ & _ & _ & -> & _)]];
      [done|].
    apply elem_of_app. by left.
  - done.
  - simpl in Hdel.
    destruct (delete_post parse post_id user io w) as [r w'] eqn:E. simpl.
    apply delete_post_inv in E
      as (_ & _ & _ & [[-> _]|(u & found & Hu & Hfind & _ & -> & ->)]);
      [done|].
    rewrite Hu in Hdel. apply N.eqb_neq in Hdel.
    apply find_has_id in Hfind as [Hid _].
    apply list_elem_of_filter. split; [congruence|done].
Qed.

Lemma run_keeps parse rs w post :
  post ∈ tbl_posts w →
  undeleted parse (Post.id post) w rs = true →
  post ∈ tbl_posts (run parse w rs).
Proof.
  revert w. induction rs as [|r rs IH]; intros w Hin Hrs; simpl in *; [done|].
  apply andb_true_iff in Hrs as [Hr Hrs]. apply negb_true_iff in Hr.
  apply IH; [by apply handle_keeps | done].
Qed.

(** C9: a post returned by an upload has, in the feed served after any run
    of requests none of which deletes it, a record with the same [id] (as
    text), [url], [file_type], [file_name] and [caption]. *)
Theorem upload_then_feed_round_trip parse f caption user io w post w1 rs viewer :
  upload_file f caption user io w = (Ok (Some post), w1) →
  undeleted parse (Post.id post) w1 rs = true →
  ∃ v, v ∈ posts (get_feed viewer (run parse w1 rs)) ∧
    PostView.id v = UUID_str (Post.id post) ∧
    PostView.url v = Post.url post ∧
    PostView.file_type v = Post.file_type post ∧
    PostView.file_name v = Post.file_name post ∧
    PostView.caption v = Post.caption post.
Proof.
  intros Hup Hrs.
  assert (post ∈ tbl_posts w1) as Hin.
  { apply upload_file_inv in Hup
      as [_ [[_ Hr]|(res & ct & _ & _ & _ & _ & -> & [Hr|[e Hr]])]];
      [by destruct (Hr post) | | done].
    simplify_eq. apply elem_of_app. right. by apply list_elem_of_singleton. }
  apply (run_keeps parse rs) in Hin; [|done].
  exists (post_view viewer (user_dict_of (tbl_users (run parse w1 rs))) post).
  split; [|done].
  simpl. apply list_elem_of_fmap_2.
  by rewrite select_posts_ordered_perm.
Qed.

Lemma upload_then_feed_round_trip_witness :
  ∃ v, v ∈ posts (get_feed bob
                    (run hex_UUID cat_world
                       [Delete cat_id bob quiet;
                        Upload clip_mp4 None bob (answers 200 0xc11b 2000);
                        Feed alice;
                        Delete "00000000-0000-0000-0000-00000000c11b" bob quiet])) ∧
    PostView.id v = UUID_str 0xcafe ∧
    PostView.url v = "https://ik.example/media_Xy1" ∧
    PostView.file_type v = "image" ∧
    PostView.file_name v = "media_Xy1" ∧
    PostView.caption v = Some "hi".
Proof.
  apply (upload_then_feed_round_trip hex_UUID cat_jpg (Some "hi") alice
           (answers 200 0xcafe 1000) empty_world
           (new_post (Some "hi") alice (answers 200 0xcafe 1000)
              (mkUploadResult 200 "https://ik.example/media_Xy1" "media_Xy1")
              "image/jpeg")
           cat_world).
  - reflexivity.
  - vm_compute. reflexivity.
Defined.

(** ** Further properties of the upload handler *)

Lemma existsb_has_id x rows :
  existsb (has_id x) rows = false ↔ x ∉ Post.id <$> rows.
Proof.
  induction rows as [|p rows IH]; simpl.
  - split; [intros _; apply not_elem_of_nil | done].
  - rewrite orb_false_iff, IH, not_elem_of_cons. unfold has_id.
    rewrite N.eqb_neq. naive_solver.
Qed.

(** The handler up to the status test, when every collaborator answers: the
    temporary file is on disk and its path is recorded. *)
Lemma upload_body_reaches f caption user io res w :
  reaches_media_store f io res →
  ∃ path,
    upload_body f caption user io (mkFrame w None) =
    (if Z.eqb (http_status_code res) 200 then
       ft <- file_type_of (content_type f) ;;
       let post := Post.mk (io_uuid4 io) (User.id user) (Some caption)
                     (upload_url res) ft (upload_name res) (io_utcnow io) in
       session_add_commit io post ;;;
       attempt (io_refresh io) ;;;
       ret (Some post)
     else ret None)
      (mkFrame (set_files (λ fs, {[path]} ∪ fs) w) (Some path)).
Proof.
  intros ([name Hname] & [path Hpath] & Hcopy & Hopen & Hik).
  exists path. unfold upload_body, splitext, NamedTemporaryFile,
    imagekit_upload_file, attempt, bind, ret, modify.
  by rewrite Hname, Hpath, Hcopy, Hopen, Hik.
Qed.

(** X1: an upload fails exactly when the body of its [try] statement raises,
    and the caller then gets an [HTTPException] with status 500 whose detail
    is [str] of the exception that the body raised, and of no other. *)
Theorem upload_failure_is_500 f caption user io w e :
  fst (upload_file f caption user io w) = Raise e ↔
  ∃ cause,
    fst (upload_body f (default "" caption) user io (mkFrame w None)) = Raise cause ∧
    e = HTTPException 500 (Str cause).
Proof.
  rewrite upload_file_cleanup. unfold try_except, raise.
  destruct (upload_body _ _ _ _ _) as [[r|cause] fr]; simpl.
  - split; [done | by intros (cause & ? & _)].
  - split.
    + intros [= <-]. by exists cause.
    + intros (cause' & [= <-] & ->). done.
Qed.

Lemma upload_failure_is_500_witness :
  ∃ cause,
    fst (upload_body cat_jpg (default "" None) alice media_store_down
           (mkFrame empty_world None)) = Raise cause ∧
    HTTPException 500 (Str (OtherError "connection reset"))
    = HTTPException 500 (Str cause).
Proof.
  apply (proj1 (upload_failure_is_500 cat_jpg None alice media_store_down
                  empty_world
                  (HTTPException 500 (Str (OtherError "connection reset"))))).
  reflexivity.
Defined.

(** The handler once the row is committed: the outcome is decided by
    [session.refresh] alone, and the row is in the table either way. *)
Lemma upload_file_commits f caption user io w res ct :
  reaches_media_store f io res →
  http_status_code res = 200 →
  content_type f = Some ct →
  io_commit io = None →
  io_uuid4 io ∉ ids w →
  fst (upload_file f caption user io w)
    = match io_refresh io with
      | None => Ok (Some (new_post caption user io res ct))
      | Some e => Raise (HTTPException 500 (Str e))
      end ∧
  tbl_posts (snd (upload_file f caption user io w))
    = (tbl_posts w ++ [new_post caption user io res ct])%list ∧
  tbl_users (snd (upload_file f caption user io w)) = tbl_users w.
Proof.
  intros Hreach Hstatus Hct Hcommit Hfresh.
  apply existsb_has_id in Hfresh. apply Z.eqb_eq in Hstatus.
  rewrite upload_file_cleanup. unfold try_except.
  destruct (upload_body_reaches f (default "" caption) user io res w Hreach)
    as [path ->].
  rewrite Hstatus. unfold file_type_of, session_add_commit, in_world, attempt,
    bind, ret, get, modify. rewrite Hct, Hcommit. simpl.
  rewrite Hfresh. unfold cleanup, raise. simpl.
  destruct (io_refresh io); simpl; by destruct (negb _ && _).
Qed.

(** X2: when every collaborator answers, the media store reports 200, the
    content type is present and the new identifier is not in the table, the
    upload returns the new post, appends it as the last row and leaves the
    [user] table alone. *)
Theorem upload_succeeds f caption user io w res ct :
  reaches_media_store f io res →
  http_status_code res = 200 →
  content_type f = Some ct →
  io_commit io = None →
  io_uuid4 io ∉ ids w →
  io_refresh io = None →
  fst (upload_file f caption user io w) = Ok (Some (new_post caption user io res ct)) ∧
  tbl_posts (snd (upload_file f caption user io w))
    = (tbl_posts w ++ [new_post caption user io res ct])%list ∧
  tbl_users (snd (upload_file f caption user io w)) = tbl_users w.
Proof.
  intros Hreach Hstatus Hct Hcommit Hfresh Hrefresh.
  destruct (upload_file_commits f caption user io w res ct) as (Hr & Hp & Hu);
    [done..|].
  by rewrite Hrefresh in Hr.
Qed.

Lemma upload_succeeds_witness :
  fst (upload_file cat_jpg (Some "hi") alice (answers 200 0xcafe 1000) empty_world)
    = Ok (Some (new_post (Some "hi") alice (answers 200 0xcafe 1000)
                  (mkUploadResult 200 "https://ik.example/media_Xy1" "media_Xy1")
                  "image/jpeg")) ∧
  tbl_posts cat_world
    = (tbl_posts empty_world ++
       [new_post (Some "hi") alice (answers 200 0xcafe 1000)
          (mkUploadResult 200 "https://ik.example/media_Xy1" "media_Xy1")
          "image/jpeg"])%list ∧
  tbl_users cat_world = tbl_users empty_world.
Proof.
  apply (upload_succeeds cat_jpg (Some "hi") alice (answers 200 0xcafe 1000)
           empty_world
           (mkUploadResult 200 "https://ik.example/media_Xy1" "media_Xy1")
           "image/jpeg").
  - repeat split; by eauto.
  - reflexivity.
  - reflexivity.
  - reflexivity.
  - apply not_elem_of_nil.
  - reflexivity.
Defined.

(** X3: when [session.refresh] raises after the commit has succeeded, the
    caller gets status 500 although the post is in the table. *)
Theorem upload_refresh_failure_keeps_post f caption user io w res ct e :
  reaches_media_store f io res →
  http_status_code res = 200 →
  content_type f = Some ct →
  io_commit io = None →
  io_uuid4 io ∉ ids w →
  io_refresh io = Some e →
  fst (upload_file f caption user io w) = Raise (HTTPException 500 (Str e)) ∧
  tbl_posts (snd (upload_file f caption user io w))
    = (tbl_posts w ++ [new_post caption user io res ct])%list.
Proof.
  intros Hreach Hstatus Hct Hcommit Hfresh Hrefresh.
  destruct (upload_file_commits f caption user io w res ct) as (Hr & Hp & Hu);
    [done..|].
  by rewrite Hrefresh in Hr.
Qed.

Lemma upload_refresh_failure_keeps_post_witness :
  fst (upload_file cat_jpg (Some "hi") alice refresh_fails empty_world)
    = Raise (HTTPException 500 (Str (OtherError "connection lost"))) ∧
  tbl_posts (snd (upload_file cat_jpg (Some "hi") alice refresh_fails empty_world))
    = (tbl_posts empty_world ++
       [new_post (Some "hi") alice refresh_fails (media_answer 200) "image/jpeg"])%list.
Proof.
  apply (upload_refresh_failure_keeps_post cat_jpg (Some "hi") alice refresh_fails
           empty_world (media_answer 200) "image/jpeg"
           (OtherError "connection lost")).
  - repeat split; by eauto.
  - reflexivity.
  - reflexivity.
  - reflexivity.
  - apply not_elem_of_nil.
  - reflexivity.
Defined.

(** X4: a post that an upload returns or persists belongs to the caller, has
    the column defaults as [id] and [created_at], and carries the [url] and
    the name that the media store returned together with status 200. *)
Theorem upload_post_belongs_to_caller f caption user io w post :
  fst (upload_file f caption user io w) = Ok (Some post) ∨
  tbl_posts (snd (upload_file f caption user io w)) = (tbl_posts w ++ [post])%list →
  Post.user_id post = User.id user ∧
  Post.id post = io_uuid4 io ∧
  Post.created_at post = io_utcnow io ∧
  ∃ res, io_imagekit io = inr res ∧ http_status_code res = 200 ∧
    Post.url post = upload_url res ∧ Post.file_name post = upload_name res.
Proof.
  intros H.
  destruct (upload_post_is_new _ _ _ _ _ _ H) as (res & ct & Hik & _ & ->).
  repeat split. exists res. repeat split; [done|].
  destruct (upload_file f caption user io w) as [r w'] eqn:E.
  apply upload_file_inv in E as [_ [[Hp Hr]|(res' & ct' & Hik' & Hs & _)]].
  - simpl in H. destruct H as [H|H]; [by apply Hr in H|].
    rewrite Hp in H. apply (f_equal length) in H.
    rewrite length_app in H. simpl in H. lia.
  - congruence.
Qed.

Lemma upload_post_belongs_to_caller_witness :
  Post.user_id (new_post (Some "hi") alice (answers 200 0xcafe 1000)
                  (media_answer 200) "image/jpeg") = User.id alice ∧
  Post.id (new_post (Some "hi") alice (answers 200 0xcafe 1000)
             (media_answer 200) "image/jpeg") = io_uuid4 (answers 200 0xcafe 1000) ∧
  Post.created_at (new_post (Some "hi") alice (answers 200 0xcafe 1000)
                     (media_answer 200) "image/jpeg")
    = io_utcnow (answers 200 0xcafe 1000) ∧
  ∃ res, io_imagekit (answers 200 0xcafe 1000) = inr res ∧
    http_status_code res = 200 ∧
    Post.url (new_post (Some "hi") alice (answers 200 0xcafe 1000)
                (media_answer 200) "image/jpeg") = upload_url res ∧
    Post.file_name (new_post (Some "hi") alice (answers 200 0xcafe 1000)
                      (media_answer 200) "image/jpeg") = upload_name res.
Proof.
  apply (upload_post_belongs_to_caller cat_jpg (Some "hi") alice
           (answers 200 0xcafe 1000) empty_world).
  left. reflexivity.
Defined.

(** X5: an upload never touches the [user] table and never removes, alters
    or reorders a row of [posts]: the table afterwards is the table before
    with at most one row appended. *)
Theorem upload_only_appends f caption user io w :
  tbl_users (snd (upload_file f caption user io w)) = tbl_users w ∧
  ∃ new, tbl_posts (snd (upload_file f caption user io w))
         = (tbl_posts w ++ new)%list ∧ (length new ≤ 1)%nat.
Proof.
  destruct (upload_file f caption user io w) as [r w'] eqn:E.
  apply upload_file_inv in E as [Hu [[Hp _]|(res & ct & _ & _ & _ & _ & Hp & _)]];
    simpl; (split; [done|]).
  - exists []. rewrite app_nil_r. split; [done | simpl; lia].
  - eexists [_]. split; [exact Hp | simpl; lia].
Qed.

(** X6: the primary key of [posts]: when the identifier drawn for the new row
    is already in the table, the commit fails, the caller gets status 500
    and the table is unchanged. *)
Theorem upload_duplicate_id_is_rejected f caption user io w res ct :
  reaches_media_store f io res →
  http_status_code res = 200 →
  content_type f = Some ct →
  io_commit io = None →
  io_uuid4 io ∈ ids w →
  fst (upload_file f caption user io w)
    = Raise (HTTPException 500 (Str (IntegrityError "posts"))) ∧
  tbl_posts (snd (upload_file f caption user io w)) = tbl_posts w.
Proof.
  intros Hreach Hstatus Hct Hcommit Hdup.
  assert (existsb (has_id (io_uuid4 io)) (tbl_posts w) = true) as Hex.
  { destruct (existsb _ _) eqn:E; [done|]. by apply existsb_has_id in E. }
  apply Z.eqb_eq in Hstatus.
  rewrite upload_file_cleanup. unfold try_except.
  destruct (upload_body_reaches f (default "" caption) user io res w Hreach)
    as [path ->].
  rewrite Hstatus. unfold file_type_of, session_add_commit, in_world, attempt,
    bind, ret, get, modify. rewrite Hct, Hcommit. simpl.
  rewrite Hex. unfold cleanup, raise. simpl.
  by destruct (negb _ && _).
Qed.

Lemma upload_duplicate_id_is_rejected_witness :
  fst (upload_file clip_mp4 None bob (answers 200 0xcafe 2000) cat_world)
    = Raise (HTTPException 500 (Str (IntegrityError "posts"))) ∧
  tbl_posts (snd (upload_file clip_mp4 None bob (answers 200 0xcafe 2000) cat_world))
    = tbl_posts cat_world.
Proof.
  apply (upload_duplicate_id_is_rejected clip_mp4 None bob (answers 200 0xcafe 2000)
           cat_world (media_answer 200) "video/mp4").
  - repeat split; by eauto.
  - reflexivity.
  - reflexivity.
  - reflexivity.
  - apply list_elem_of_here.
Defined.

(** X7: an upload part without a content type is only found out after the
    media store has accepted the file: the caller gets status 500 for the
    [AttributeError] and no post is stored. *)
Theorem upload_without_content_type f caption user io w res :
  reaches_media_store f io res →
  http_status_code res = 200 →
  content_type f = None →
  fst (upload_file f caption user io w)
    = Raise (HTTPException 500
               (Str (AttributeError "'NoneType' object has no attribute 'startswith'"))) ∧
  tbl_posts (snd (upload_file f caption user io w)) = tbl_posts w.
Proof.
  intros Hreach Hstatus Hct. apply Z.eqb_eq in Hstatus.
  rewrite upload_file_cleanup. unfold try_except.
  destruct (upload_body_reaches f (default "" caption) user io res w Hreach)
    as [path ->].
  rewrite Hstatus. unfold file_type_of, bind, raise. rewrite Hct.
  unfold cleanup. simpl. by destruct (negb _ && _).
Qed.

Lemma upload_without_content_type_witness :
  fst (upload_file untyped_jpg None alice (answers 200 0xcafe 1000) empty_world)
    = Raise (HTTPException 500
               (Str (AttributeError "'NoneType' object has no attribute 'startswith'"))) ∧
  tbl_posts (snd (upload_file untyped_jpg None alice (answers 200 0xcafe 1000)
                    empty_world)) = tbl_posts empty_world.
Proof.
  apply (upload_without_content_type untyped_jpg None alice
           (answers 200 0xcafe 1000) empty_world (media_answer 200)).
  - repeat split; by eauto.
  - reflexivity.
  - reflexivity.
Defined.

(** X8: an upload part without a file name fails before anything is written:
    the caller gets status 500 for the [TypeError], and the only change to
    the world is that the input stream is closed. *)
Theorem upload_without_filename f caption user io w :
  filename f = None →
  upload_file f caption user io w
    = (Raise (HTTPException 500
                (Str (TypeError "expected str, bytes or os.PathLike object, not NoneType"))),
       set_closed (λ c, {[file f]} ∪ c) w).
Proof.
  intros Hname. rewrite upload_file_cleanup.
  unfold try_except, upload_body, splitext, bind, raise. by rewrite Hname.
Qed.

Lemma upload_without_filename_witness :
  upload_file unnamed_jpg None alice (answers 200 0xcafe 1000) empty_world
    = (Raise (HTTPException 500
                (Str (TypeError "expected str, bytes or os.PathLike object, not NoneType"))),
       set_closed (λ c, {[file unnamed_jpg]} ∪ c) empty_world).
Proof.
  apply (upload_without_filename unnamed_jpg None alice (answers 200 0xcafe 1000)
           empty_world).
  reflexivity.
Defined.

(** ** Further properties of the feed handler *)

Lemma user_dict_of_snoc users u :
  user_dict_of (users ++ [u]) = <[User.id u := User.email u]> (user_dict_of users).
Proof. unfold user_dict_of. by rewrite foldl_snoc. Qed.

Lemma user_dict_of_None users k :
  k ∉ User.id <$> users → user_dict_of users !! k = None.
Proof.
  induction users as [|u users IH] using rev_ind; intros Hk; [done|].
  rewrite fmap_app, not_elem_of_app in Hk. destruct Hk as [Hk Hu].
  rewrite user_dict_of_snoc, lookup_insert_ne; [by apply IH|].
  intros E. apply Hu. rewrite <- E. simpl. apply list_elem_of_here.
Qed.

Lemma user_dict_of_last before u after :
  User.id u ∉ User.id <$> after →
  user_dict_of (before ++ u :: after) !! User.id u = Some (User.email u).
Proof.
  induction after as [|u' after IH] using rev_ind; intros Hu.
  - by rewrite user_dict_of_snoc, lookup_insert_eq.
  - rewrite fmap_app, not_elem_of_app in Hu. destruct Hu as [Hu Hu'].
    replace (before ++ u :: after ++ [u'])%list
      with ((before ++ u :: after) ++ [u'])%list by by rewrite <- app_assoc.
    rewrite user_dict_of_snoc, lookup_insert_ne; [by apply IH|].
    intros E. apply Hu'. rewrite <- E. simpl. apply list_elem_of_here.
Qed.

(** X9: the [email] of a feed record is the email of the owner's row in the
    [user] table; were several rows to carry the owner's id, the last one
    counts. *)
Theorem feed_email_of_owner user w i v post before u after :
  posts (get_feed user w) !! i = Some v →
  select_posts_ordered w !! i = Some post →
  tbl_users w = (before ++ u :: after)%list →
  User.id u ∉ User.id <$> after →
  User.id u = Post.user_id post →
  PostView.email v = User.email u.
Proof.
  simpl. intros Hv Hpost Husers Hlast Hid.
  rewrite list_lookup_fmap, Hpost in Hv. simpl in Hv. simplify_eq. simpl.
  by rewrite Husers, <- Hid, user_dict_of_last.
Qed.

Lemma feed_email_of_owner_witness :
  PostView.email (cat_view false) = User.email alice.
Proof.
  apply (feed_email_of_owner bob clip_world 1%nat (cat_view false)
           (new_post (Some "hi") alice (answers 200 0xcafe 1000)
              (media_answer 200) "image/jpeg")
           [] alice [bob]).
  - vm_compute. reflexivity.
  - vm_compute. reflexivity.
  - reflexivity.
  - apply (bool_decide_unpack _). reflexivity.
  - reflexivity.
Defined.

(** X10: when no row of the [user] table carries the owner's id, the record
    is still emitted, with the email "Unknown". *)
Theorem feed_email_unknown user w i v post :
  posts (get_feed user w) !! i = Some v →
  select_posts_ordered w !! i = Some post →
  Post.user_id post ∉ User.id <$> tbl_users w →
  PostView.email v = "Unknown".
Proof.
  simpl. intros Hv Hpost Hnone.
  rewrite list_lookup_fmap, Hpost in Hv. simpl in Hv. simplify_eq. simpl.
  by rewrite user_dict_of_None.
Qed.

Lemma feed_email_unknown_witness :
  PostView.email
    (PostView.mk "00000000-0000-0000-0000-00000000cafe"
       "00000000-0000-0000-0000-0000000a11ce" (Some "hi")
       "https://ik.example/media_Xy1" "image" "media_Xy1" (isoformat 1000)
       false "Unknown") = "Unknown".
Proof.
  apply (feed_email_unknown bob orphan_world 0%nat _
           (new_post (Some "hi") alice (answers 200 0xcafe 1000)
              (media_answer 200) "image/jpeg")).
  - vm_compute. reflexivity.
  - vm_compute. reflexivity.
  - apply (bool_decide_unpack _). reflexivity.
Defined.

(** Rows are told apart by a column whose values are pairwise distinct. *)
Lemma NoDup_fmap_eq {A B} (f : A → B) (l : list A) x y :
  NoDup (f <$> l) → x ∈ l → y ∈ l → f x = f y → x = y.
Proof.
  induction l as [|a l IH]; simpl; intros Hnd Hx Hy Hf.
  - by apply elem_of_nil in Hx.
  - apply NoDup_cons in Hnd as [Ha Hnd].
    apply elem_of_cons in Hx as [->|Hx]; apply elem_of_cons in Hy as [->|Hy];
      try done.
    + destruct Ha. rewrite Hf. by apply list_elem_of_fmap_2.
    + destruct Ha. rewrite <- Hf. by apply list_elem_of_fmap_2.
    + by apply IH.
Qed.

(** X11: when no two posts share a timestamp, the feed depends on which rows
    the table holds and not on the order in which they were inserted. *)
Theorem feed_ignores_insertion_order user w1 w2 :
  tbl_posts w1 ≡ₚ tbl_posts w2 →
  tbl_users w1 = tbl_users w2 →
  NoDup (Post.created_at <$> tbl_posts w1) →
  get_feed user w1 = get_feed user w2.
Proof.
  intros Hperm Husers Hdistinct. unfold get_feed. rewrite Husers. do 2 f_equal.
  apply (StronglySorted_unique_strong created_at_desc);
    try apply select_posts_ordered_sorted.
  - intros a b Ha Hb Hab Hba. unfold created_at_desc in *.
    rewrite select_posts_ordered_perm in Ha.
    rewrite select_posts_ordered_perm, <- Hperm in Hb.
    apply (NoDup_fmap_eq Post.created_at (tbl_posts w1)); [done..|lia].
  - by rewrite !select_posts_ordered_perm.
Qed.

Lemma feed_ignores_insertion_order_witness :
  get_feed alice clip_world_swapped = get_feed alice clip_world.
Proof.
  apply (feed_ignores_insertion_order alice clip_world_swapped clip_world).
  - vm_compute. apply perm_swap.
  - reflexivity.
  - vm_compute. repeat constructor; set_solver.
Defined.

(** ** Further properties of the delete handler *)

(** The owner's delete of an existing post, with the session answering. *)
Lemma delete_post_owner parse post_id user io w u post :
  parse post_id = inr u →
  io_execute io = None →
  List.find (has_id u) (tbl_posts w) = Some post →
  Post.user_id post = User.id user →
  io_delete_commit io = None →
  delete_post parse post_id user io w
    = (Ok deleted, set_posts (filter (λ p, Post.id p ≠ u)) w).
Proof.
  intros Hparse Hexec Hfind Howner Hcommit.
  destruct (find_has_id _ _ _ Hfind) as [Hid _].
  apply N.eqb_eq in Howner.
  unfold delete_post, parse_uuid. unfold_handler.
  by rewrite Hparse, Hexec, Hfind, Howner, Hcommit, Hid.
Qed.

(** X12: the owner's delete of an existing post, with the session answering,
    succeeds; it removes the rows with that identifier and no other, and no
    row with that identifier is left. *)
Theorem delete_succeeds parse post_id user io w u post :
  parse post_id = inr u →
  io_execute io = None →
  List.find (has_id u) (tbl_posts w) = Some post →
  Post.user_id post = User.id user →
  io_delete_commit io = None →
  delete_post parse post_id user io w
    = (Ok deleted, set_posts (filter (λ p, Post.id p ≠ u)) w) ∧
  u ∉ ids (snd (delete_post parse post_id user io w)).
Proof.
  intros Hparse Hexec Hfind Howner Hcommit.
  rewrite (delete_post_owner parse post_id user io w u post) by done.
  split; [done|]. unfold ids. simpl.
  intros Hin. apply list_elem_of_fmap in Hin as (q & -> & Hq).
  by apply list_elem_of_filter in Hq as [Hne _].
Qed.

Lemma delete_succeeds_witness :
  delete_post hex_UUID cat_id alice quiet clip_world
    = (Ok deleted, set_posts (filter (λ p, Post.id p ≠ 0xcafe%N)) clip_world) ∧
  0xcafe%N ∉ ids (snd (delete_post hex_UUID cat_id alice quiet clip_world)).
Proof.
  apply (delete_succeeds hex_UUID cat_id alice quiet clip_world 0xcafe%N
           (new_post (Some "hi") alice (answers 200 0xcafe 1000)
              (media_answer 200) "image/jpeg"));
    reflexivity.
Defined.

(** X13: a delete that fails leaves the whole world as it was and raises an
    [HTTPException] with status 500 whose detail is [str] of the exception
    raised inside the [try] block: the parser's [ValueError]; else the
    exception of [session.execute]; else the 404 exception when no post has
    the identifier; else the 403 exception when the post found is not the
    caller's; else the exception of the commit. *)
Theorem delete_failure_changes_nothing parse post_id user io w e w' :
  delete_post parse post_id user io w = (Raise e, w') →
  w' = w ∧
  ∃ cause,
    e = HTTPException 500 (Str cause) ∧
    match parse post_id with
    | inl msg => cause = ValueError msg
    | inr u =>
        match io_execute io with
        | Some failure => cause = failure
        | None =>
            match List.find (has_id u) (tbl_posts w) with
            | None => cause = not_found
            | Some post =>
                if N.eqb (Post.user_id post) (User.id user)
                then io_delete_commit io = Some cause
                else cause = forbidden
            end
        end
    end.
Proof.
  unfold delete_post, parse_uuid. unfold_handler.
  destruct (parse post_id) as [msg|u]; simpl.
  { intros [= <- <-]. eauto. }
  destruct (io_execute io) as [failure|]; simpl.
  { intros [= <- <-]. eauto. }
  destruct (List.find _ _) as [post|]; simpl; [|intros [= <- <-]; by eauto].
  destruct (N.eqb _ _); simpl; [|intros [= <- <-]; by eauto].
  destruct (io_delete_commit io) as [failure|]; simpl; [|done].
  intros [= <- <-]. eauto.
Qed.

Lemma delete_failure_changes_nothing_witness :
  clip_world = clip_world ∧
  ∃ cause,
    HTTPException 500 (Str (OtherError "database is locked"))
    = HTTPException 500 (Str cause) ∧
    match hex_UUID cat_id with
    | inl msg => cause = ValueError msg
    | inr u =>
        match io_execute commit_fails with
        | Some failure => cause = failure
        | None =>
            match List.find (has_id u) (tbl_posts clip_world) with
            | None => cause = not_found
            | Some post =>
                if N.eqb (Post.user_id post) (User.id alice)
                then io_delete_commit commit_fails = Some cause
                else cause = forbidden
            end
        end
    end.
Proof.
  apply (delete_failure_changes_nothing hex_UUID cat_id alice commit_fails clip_world).
  reflexivity.
Defined.

(** X14: a delete removes no post with an identifier other than the one its
    path segment names. *)
Theorem delete_keeps_other_ids parse post_id user io w u q :
  parse post_id = inr u →
  q ∈ tbl_posts w →
  Post.id q ≠ u →
  q ∈ tbl_posts (snd (delete_post parse post_id user io w)).
Proof.
  intros Hparse Hq Hne.
  destruct (delete_post parse post_id user io w) as [r w'] eqn:E. simpl.
  apply delete_post_inv in E
    as (_ & _ & _ & [[-> _]|(u' & found & Hu' & Hfind & _ & _ & ->)]); [done|].
  apply find_has_id in Hfind as [Hid _].
  apply list_elem_of_filter. split; [congruence|done].
Qed.

Lemma delete_keeps_other_ids_witness :
  new_post None bob (answers 200 0xc11b 2000) (media_answer 200) "video/mp4"
    ∈ tbl_posts (snd (delete_post hex_UUID cat_id alice quiet clip_world)).
Proof.
  apply (delete_keeps_other_ids hex_UUID cat_id alice quiet clip_world 0xcafe%N).
  - reflexivity.
  - apply list_elem_of_In. vm_compute. auto.
  - discriminate.
Defined.

(** X15: while identifiers are unique in the table, as the primary key keeps
    them, no delete removes a post of a user other than the caller. *)
Theorem delete_keeps_foreign_posts parse post_id user io w q :
  NoDup (ids w) →
  q ∈ tbl_posts w →
  Post.user_id q ≠ User.id user →
  q ∈ tbl_posts (snd (delete_post parse post_id user io w)).
Proof.
  intros Hnd Hq Hforeign.
  destruct (delete_post parse post_id user io w) as [r w'] eqn:E. simpl.
  apply delete_post_inv in E
    as (_ & _ & _ & [[-> _]|(u' & found & _ & Hfind & Howner & _ & ->)]); [done|].
  apply find_has_id in Hfind as [_ Hfound].
  apply list_elem_of_filter. split; [|done].
  intros Hid. apply Hforeign. rewrite <- Howner. f_equal.
  by apply (NoDup_fmap_eq Post.id (tbl_posts w)).
Qed.

Lemma delete_keeps_foreign_posts_witness :
  new_post (Some "hi") alice (answers 200 0xcafe 1000) (media_answer 200) "image/jpeg"
    ∈ tbl_posts (snd (delete_post hex_UUID cat_id bob quiet clip_world)).
Proof.
  apply (delete_keeps_foreign_posts hex_UUID cat_id bob quiet clip_world).
  - apply (bool_decide_unpack _). vm_compute. reflexivity.
  - apply list_elem_of_In. vm_compute. auto.
  - discriminate.
Defined.

(** X16: after a delete has succeeded, the feed of any viewer holds the
    records of exactly the posts that were stored under another identifier;
    the deleted post is no longer listed and nothing else is lost. *)
Theorem delete_then_feed parse post_id user io w w' u viewer v :
  delete_post parse post_id user io w = (Ok deleted, w') →
  parse post_id = inr u →
  v ∈ posts (get_feed viewer w') ↔
  ∃ q, q ∈ tbl_posts w ∧ Post.id q ≠ u ∧
       v = post_view viewer (user_dict_of (tbl_users w)) q.
Proof.
  intros Hdel Hparse.
  apply delete_post_inv in Hdel
    as (Husers & _ & _ & [[_ [e ?]]|(u' & found & Hu' & Hfind & _ & _ & Hrows)]);
    [done|].
  apply find_has_id in Hfind as [Hid _].
  assert (u' = u) as -> by congruence.
  simpl. rewrite Husers, list_elem_of_fmap. split.
  - intros (q & -> & Hq). rewrite select_posts_ordered_perm, Hrows in Hq.
    apply list_elem_of_filter in Hq as [Hne Hq]. exists q. by rewrite <- Hid.
  - intros (q & Hq & Hne & ->). exists q. split; [done|].
    rewrite select_posts_ordered_perm, Hrows. apply list_elem_of_filter.
    split; [by rewrite Hid | done].
Qed.

Lemma delete_then_feed_witness :
  clip_view true
    ∈ posts (get_feed bob (snd (delete_post hex_UUID cat_id alice quiet clip_world)))
  ↔ ∃ q, q ∈ tbl_posts clip_world ∧ Post.id q ≠ 0xcafe%N ∧
         clip_view true = post_view bob (user_dict_of (tbl_users clip_world)) q.
Proof.
  apply (delete_then_feed hex_UUID cat_id alice quiet clip_world
           (snd (delete_post hex_UUID cat_id alice quiet clip_world))
           0xcafe%N bob (clip_view true));
    reflexivity.
Defined.

(** X17: the [is_owner] flag of a feed record tells whether the caller's
    delete of the record's [id] goes through: with identifiers unique, the
    session answering and the parser reading back what [str] printed, the
    delete succeeds exactly when the flag is set. *)
Theorem is_owner_iff_delete_succeeds parse user io w post :
  post ∈ tbl_posts w →
  NoDup (ids w) →
  parse (UUID_str (Post.id post)) = inr (Post.id post) →
  io_execute io = None →
  io_delete_commit io = None →
  let v := post_view user (user_dict_of (tbl_users w)) post in
  PostView.is_owner v = true ↔
  fst (delete_post parse (PostView.id v) user io w) = Ok deleted.
Proof.
  intros Hpost Hnd Hparse Hexec Hcommit. simpl.
  assert (List.find (has_id (Post.id post)) (tbl_posts w) = Some post) as Hfind.
  { destruct (List.find _ _) as [q|] eqn:E.
    - apply find_has_id in E as [Hid Hq]. f_equal.
      by apply (NoDup_fmap_eq Post.id (tbl_posts w)).
    - apply list_elem_of_In in Hpost. apply (find_none _ _ E post) in Hpost.
      unfold has_id in Hpost. by rewrite N.eqb_refl in Hpost. }
  rewrite N.eqb_eq. split.
  - intros Howner.
    by rewrite (delete_post_owner parse _ user io w _ post Hparse Hexec Hfind
                  Howner Hcommit).
  - intros Hok.
    destruct (delete_post parse _ user io w) as [r w'] eqn:E. simpl in Hok. subst r.
    apply delete_post_inv in E
      as (_ & _ & _ & [[_ [e ?]]|(u' & found & Hu' & Hfind' & Howner & _)]);
      [done|].
    assert (u' = Post.id post) as -> by congruence. congruence.
Qed.

Lemma is_owner_iff_delete_succeeds_witness :
  PostView.is_owner (cat_view true) = true ↔
  fst (delete_post hex_UUID (PostView.id (cat_view true)) alice quiet clip_world)
    = Ok deleted.
Proof.
  apply (is_owner_iff_delete_succeeds hex_UUID alice quiet clip_world
           (new_post (Some "hi") alice (answers 200 0xcafe 1000)
              (media_answer 200) "image/jpeg")).
  - apply list_elem_of_In. vm_compute. auto.
  - apply (bool_decide_unpack _). vm_compute. reflexivity.
  - vm_compute. reflexivity.
  - reflexivity.
  - reflexivity.
Defined.

(** ** Invariants of a run of requests *)

(** Where the rows come from after one request: from the table before, or
    from the request. *)
Lemma handle_posts_from parse w r p :
  p ∈ tbl_posts (handle parse w r) → p ∈ tbl_posts w ∨ created_by r p.
Proof.
  destruct r as [f caption user io|user|post_id user io]; simpl.
  - destruct (upload_file f caption user io w) as [res w'] eqn:E. simpl.
    apply upload_file_inv in E
      as [_ [[-> _]|(r & ct & Hik & Hs & Hct & _ & -> & _)]]; [by left|].
    rewrite elem_of_app, list_elem_of_singleton. intros [?| ->]; [by left|].
    right. by exists r, ct.
  - by left.
  - destruct (delete_post parse post_id user io w) as [res w'] eqn:E. simpl.
    apply delete_post_inv in E
      as (_ & _ & _ & [[-> _]|(u & found & _ & _ & _ & _ & ->)]); [by left|].
    rewrite list_elem_of_filter. intros [_ ?]. by left.
Qed.

Lemma handle_ids_unique parse w r :
  NoDup (ids w) → NoDup (ids (handle parse w r)).
Proof.
  unfold ids. intros Hnd.
  destruct r as [f caption user io|user|post_id user io]; simpl; [| done |].
  - destruct (upload_file f caption user io w) as [res w'] eqn:E. simpl.
    apply upload_file_inv in E
      as [_ [[-> _]|(r & ct & _ & _ & _ & Hfresh & -> & _)]]; [done|].
    apply existsb_has_id in Hfresh.
    rewrite fmap_app. apply NoDup_app. split; [done|]. split.
    + intros x Hx. simpl. rewrite list_elem_of_singleton. by intros ->.
    + apply NoDup_singleton.
  - destruct (delete_post parse post_id user io w) as [res w'] eqn:E. simpl.
    apply delete_post_inv in E
      as (_ & _ & _ & [[-> _]|(u & found & _ & _ & _ & _ & ->)]); [done|].
    eapply sublist_NoDup; [exact Hnd|].
    apply fmap_sublist, sublist_filter.
Qed.

(** X18: the primary key as an invariant: if the identifiers of the stored
    posts are pairwise distinct, they are so after any run of requests. *)
Theorem run_ids_unique parse rs w :
  NoDup (ids w) → NoDup (ids (run parse w rs)).
Proof.
  revert w. induction rs as [|r rs IH]; intros w Hnd; simpl; [done|].
  by apply IH, handle_ids_unique.
Qed.

Lemma run_ids_unique_witness : NoDup (ids (run hex_UUID empty_world busy_run)).
Proof.
  apply (run_ids_unique hex_UUID busy_run empty_world).
  apply NoDup_nil_2.
Defined.

(** X19: no handler edits a post or makes one up: every post stored after a
    run of requests was stored before it, unchanged, or is the post of an
    upload in the run that the media store answered with 200. *)
Theorem run_posts_provenance parse rs w p :
  p ∈ tbl_posts (run parse w rs) →
  p ∈ tbl_posts w ∨ ∃ r, r ∈ rs ∧ created_by r p.
Proof.
  revert w. induction rs as [|r rs IH]; intros w Hp; simpl in *; [by left|].
  apply IH in Hp as [Hp|(r' & Hr' & Hby)].
  - apply handle_posts_from in Hp as [?|?]; [by left|].
    right. exists r. split; [apply list_elem_of_here | done].
  - right. exists r'. split; [by apply list_elem_of_further | done].
Qed.

Lemma run_posts_provenance_witness :
  new_post None bob (answers 200 0xc11b 2000) (media_answer 200) "video/mp4"
    ∈ tbl_posts empty_world ∨
  ∃ r, r ∈ busy_run ∧
       created_by r (new_post None bob (answers 200 0xc11b 2000)
                       (media_answer 200) "video/mp4").
Proof.
  apply (run_posts_provenance hex_UUID busy_run empty_world).
  apply list_elem_of_In. vm_compute. auto.
Defined.

(** X20: the [file_type] column holds nothing but "video" and "image": if
    that is so of the stored posts, it is so after any run of requests. *)
Theorem run_file_types parse rs w :
  Forall video_or_image (tbl_posts w) →
  Forall video_or_image (tbl_posts (run parse w rs)).
Proof.
  revert w. induction rs as [|r rs IH]; intros w Hall; simpl; [done|].
  apply IH. rewrite Forall_forall in *. intros p Hp.
  apply handle_posts_from in Hp as [Hp|Hby]; [by apply Hall|].
  destruct r as [f caption user io| |]; try done.
  destruct Hby as (res & ct & _ & _ & _ & ->).
  unfold video_or_image, new_post. simpl.
  destruct (String.prefix "video/" ct); [by left | by right].
Qed.

Lemma run_file_types_witness :
  Forall video_or_image (tbl_posts (run hex_UUID empty_world busy_run)).
Proof.
  apply (run_file_types hex_UUID busy_run empty_world).
  apply Forall_nil_2.
Defined.

(** X21: no handler writes to the [user] table: after any run of requests it
    is what it was. *)
Theorem run_users_unchanged parse rs w :
  tbl_users (run parse w rs) = tbl_users w.
Proof.
  revert w. induction rs as [|r rs IH]; intros w; simpl; [done|].
  rewrite IH. destruct r as [f caption user io|user|post_id user io]; simpl.
  - destruct (upload_file f caption user io w) as [res w'] eqn:E.
    by apply upload_file_inv in E as [? _].
  - done.
  - destruct (delete_post parse post_id user io w) as [res w'] eqn:E.
    by apply delete_post_inv in E as (? & _).
Qed.

(** ** Upload, then delete *)

Lemma find_has_id_snoc (rows : list Post.t) p :
  Post.id p ∉ Post.id <$> rows →
  List.find (has_id (Post.id p)) (rows ++ [p])%list = Some p.
Proof.
  induction rows as [|q rows IH]; simpl; intros Hfresh.
  - unfold has_id. by rewrite N.eqb_refl.
  - apply not_elem_of_cons in Hfresh as [Hne Hfresh].
    unfold has_id at 1. destruct (N.eqb_spec (Post.id q) (Post.id p)); [done|].
    by apply IH.
Qed.

Lemma filter_snoc_fresh (rows : list Post.t) p :
  Post.id p ∉ Post.id <$> rows →
  filter (λ q, Post.id q ≠ Post.id p) (rows ++ [p])%list = rows.
Proof.
  induction rows as [|q rows IH]; simpl; intros Hfresh.
  - by rewrite filter_cons_False by naive_solver.
  - apply not_elem_of_cons in Hfresh as [Hne Hfresh].
    rewrite filter_cons_True by done. f_equal. by apply IH.
Qed.

(** X22: an upload that succeeds and the uploader's delete of the identifier
    it returned, with the session answering and the parser reading back what
    [str] printed, leave the [posts] table as it was before the upload. *)
Theorem upload_then_delete_restores parse f caption user io dio w res ct :
  reaches_media_store f io res →
  http_status_code res = 200 →
  content_type f = Some ct →
  io_commit io = None →
  io_uuid4 io ∉ ids w →
  parse (UUID_str (io_uuid4 io)) = inr (io_uuid4 io) →
  io_execute dio = None →
  io_delete_commit dio = None →
  let w1 := snd (upload_file f caption user io w) in
  fst (delete_post parse (UUID_str (io_uuid4 io)) user dio w1) = Ok deleted ∧
  tbl_posts (snd (delete_post parse (UUID_str (io_uuid4 io)) user dio w1))
    = tbl_posts w.
Proof.
  intros Hreach Hstatus Hct Hcommit Hfresh Hparse Hexec Hdcommit. simpl.
  destruct (upload_file_commits f caption user io w res ct) as (_ & Hp & _);
    [done..|].
  set (p := new_post caption user io res ct) in *.
  rewrite (delete_post_owner parse _ user dio _ (io_uuid4 io) p); try done.
  - simpl. rewrite Hp. split; [done|]. by apply (filter_snoc_fresh _ p).
  - rewrite Hp. by apply (find_has_id_snoc _ p).
Qed.

Lemma upload_then_delete_restores_witness :
  fst (delete_post hex_UUID (UUID_str (io_uuid4 (answers 200 0xc11b 2000))) bob quiet
         (snd (upload_file clip_mp4 None bob (answers 200 0xc11b 2000) cat_world)))
    = Ok deleted ∧
  tbl_posts
    (snd (delete_post hex_UUID (UUID_str (io_uuid4 (answers 200 0xc11b 2000))) bob
            quiet
            (snd (upload_file clip_mp4 None bob (answers 200 0xc11b 2000) cat_world))))
    = tbl_posts cat_world.
Proof.
  apply (upload_then_delete_restores hex_UUID clip_mp4 None bob
           (answers 200 0xc11b 2000) quiet cat_world (media_answer 200) "video/mp4").
  - repeat split; by eauto.
  - reflexivity.
  - reflexivity.
  - reflexivity.
  - apply (bool_decide_unpack _). vm_compute. reflexivity.
  - vm_compute. reflexivity.
  - reflexivity.
  - reflexivity.
Defined.


